(** * dbr: the condition builders of condition.go

    A shallow embedding of [condition.go] (package [dbr]) and the proofs of
    its specification.  The file has three layers:

    - the part of the Go runtime the package relies on: dynamically typed
      values ([interface{}]), the [reflect] operations that [Eq], [Neq] and
      [buildLikeCmp] call, and the conversion [string([]rune)];
    - the collaborators declared in other files of the package ([Dialect],
      [Buffer], [Builder], [placeholder], [ErrColumnNotSpecified]);
    - the functions of [condition.go], in source order, and their theorems. *)

From Stdlib Require Import ZArith List String Ascii Bool Arith Lia.
Import ListNotations.

Set Warnings "-register-all".

Local Open Scope string_scope.

(* ===================================================================== *)
(** * Go values and the reflect package *)
(* ===================================================================== *)

Module reflect.

(** The numeric and boolean kinds of [reflect.Kind]. *)
Inductive scalar : Set :=
| Bool | Int | Int8 | Int16 | Int32 | Int64
| Uint | Uint8 | Uint16 | Uint32 | Uint64 | Uintptr
| Float32 | Float64 | Complex64 | Complex128 | UnsafePointer.

(** [reflect.Kind].  [Ptr] is the name the source uses for the pointer
    kind. *)
Inductive Kind : Set :=
| Invalid
| Scalar (k : scalar)
| Array | Chan | Func | Interface | Map | Ptr | Slice | String | Struct.

(** Go types, as far as [reflect.Type] exposes them to this package: their
    kind, their element type and their identity.  [TDefined name u] is the
    defined type [type name u]; [rune] and [byte] are aliases, hence equal
    to [TScalar Int32] and [TScalar Uint8]. *)
Inductive rtype : Set :=
| TScalar (k : scalar)
| TString
| TInterface
| TFunc
| TPtr (elem : rtype)
| TSlice (elem : rtype)
| TArray (len : nat) (elem : rtype)
| TChan (elem : rtype)
| TMap (key elem : rtype)
| TStruct (fields : list rtype)
| TDefined (name : string) (underlying : rtype).

(** A value of type [interface{}]: the nil interface, or a dynamic type
    together with the data of that type.  The data is

    - [Word n]: booleans, numbers, [unsafe.Pointer] (the number or its bit
      pattern);
    - [Text s]: strings, as byte sequences;
    - [Ref target]: pointers, [None] being the nil pointer and [Some x] the
      address of a variable that holds [x] (an interface variable may hold
      the nil interface);
    - [Elems xs]: slices, [None] being the nil slice;
    - [Opaque len]: arrays, channels, maps, functions and structs, whose
      contents the package never reads ([len] is what [Len] reports). *)
Inductive any : Set :=
| NilInterface
| Word (T : rtype) (n : Z)
| Text (T : rtype) (s : string)
| Ref (T : rtype) (target : option any)
| Elems (T : rtype) (xs : option (list any))
| Opaque (T : rtype) (len : nat).

(** [reflect.Value].  [ValueOf] never yields a Value of kind [Interface];
    one arises only from [Elem] on a pointer to an interface variable. *)
Inductive Value : Set :=
| ZeroValue
| Holding (x : any)
| InterfaceElem (x : any).

Fixpoint Type_Kind (t : rtype) : Kind :=
  match t with
  | TScalar k => Scalar k
  | TString => String
  | TInterface => Interface
  | TFunc => Func
  | TPtr _ => Ptr
  | TSlice _ => Slice
  | TArray _ _ => Array
  | TChan _ => Chan
  | TMap _ _ => Map
  | TStruct _ => Struct
  | TDefined _ u => Type_Kind u
  end.

(** [Type.Elem]: panics ([None]) unless the kind is Array, Chan, Map,
    Pointer or Slice. *)
Fixpoint Type_Elem (t : rtype) : option rtype :=
  match t with
  | TPtr e | TSlice e | TArray _ e | TChan e | TMap _ e => Some e
  | TDefined _ u => Type_Elem u
  | _ => None
  end.

(** The dynamic type of an interface value; the nil interface has none. *)
Definition TypeOf (i : any) : option rtype :=
  match i with
  | NilInterface => None
  | Word T _ | Text T _ | Ref T _ | Elems T _ | Opaque T _ => Some T
  end.

(** [value == nil] for [value interface{}]. *)
Definition is_nil (i : any) : bool :=
  match i with NilInterface => true | _ => false end.

Definition ValueOf (i : any) : Value :=
  match i with NilInterface => ZeroValue | _ => Holding i end.

Definition Value_Type (v : Value) : option rtype :=
  match v with
  | ZeroValue => None
  | Holding x => TypeOf x
  | InterfaceElem _ => Some TInterface
  end.

Definition Value_Kind (v : Value) : Kind :=
  match v with
  | ZeroValue => Invalid
  | Holding x => match TypeOf x with Some T => Type_Kind T | None => Invalid end
  | InterfaceElem _ => Interface
  end.

(** [Value.Len]: panics ([None]) unless the kind is Array, Chan, Map, Slice
    or String. *)
Definition data_len (x : any) : nat :=
  match x with
  | Text _ s => String.length s
  | Elems _ (Some xs) => List.length xs
  | Opaque _ n => n
  | _ => 0
  end.

Definition Value_Len (v : Value) : option nat :=
  match v with
  | Holding x =>
      match Value_Kind v with
      | Array | Chan | Map | Slice | String => Some (data_len x)
      | _ => None
      end
  | _ => None
  end.

Definition target_of (x : any) : option any :=
  match x with Ref _ t => t | _ => None end.

(** Whether a pointer value points to a variable of interface type. *)
Definition points_to_interface (p : any) : bool :=
  match TypeOf p with
  | Some T =>
      match Type_Elem T with
      | Some E => match Type_Kind E with Interface => true | _ => false end
      | None => false
      end
  | None => false
  end.

(** [Value.Elem]: the value an interface contains or a pointer points to;
    the zero Value for a nil pointer or a nil interface; panics ([None])
    for every other kind. *)
Definition Value_Elem (v : Value) : option Value :=
  match v with
  | ZeroValue => None
  | InterfaceElem x => Some (ValueOf x)
  | Holding p =>
      match Value_Kind v with
      | Ptr =>
          match target_of p with
          | None => Some ZeroValue
          | Some x =>
              if points_to_interface p then Some (InterfaceElem x)
              else Some (ValueOf x)
          end
      | _ => None
      end
  end.

(** [Value.Interface]: the value as an [interface{}]; for a Value of kind
    Interface, the interface value it contains; panics ([None]) on the
    zero Value. *)
Definition Value_Interface (v : Value) : option any :=
  match v with
  | ZeroValue => None
  | Holding x => Some x
  | InterfaceElem x => Some x
  end.

End reflect.

(** ** Conversions of the language used by the package *)

Module builtin.

Local Open Scope Z_scope.

Definition RuneError : Z := 0xFFFD.

(** Code points that [string(rune)] encodes as they are: the Unicode range
    without the surrogate halves. *)
Definition valid_rune (r : Z) : bool :=
  ((0 <=? r) && (r <? 0xD800)) || ((0xE000 <=? r) && (r <=? 0x10FFFF)).

Definition byte (n : Z) : ascii := ascii_of_N (Z.to_N n).

(** The UTF-8 encoding of one rune; an invalid rune is encoded as
    [RuneError]. *)
Definition encode_rune (r : Z) : string :=
  let r := if valid_rune r then r else RuneError in
  if r <? 0x80 then
    String (byte r) EmptyString
  else if r <? 0x800 then
    String (byte (Z.lor 0xC0 (Z.shiftr r 6)))
      (String (byte (Z.lor 0x80 (Z.land r 0x3F))) EmptyString)
  else if r <? 0x10000 then
    String (byte (Z.lor 0xE0 (Z.shiftr r 12)))
      (String (byte (Z.lor 0x80 (Z.land (Z.shiftr r 6) 0x3F)))
         (String (byte (Z.lor 0x80 (Z.land r 0x3F))) EmptyString))
  else
    String (byte (Z.lor 0xF0 (Z.shiftr r 18)))
      (String (byte (Z.lor 0x80 (Z.land (Z.shiftr r 12) 0x3F)))
         (String (byte (Z.lor 0x80 (Z.land (Z.shiftr r 6) 0x3F)))
            (String (byte (Z.lor 0x80 (Z.land r 0x3F))) EmptyString))).

(** [string(rs)] for [rs []rune]. *)
Definition string_of_runes (rs : list Z) : string :=
  String.concat EmptyString (List.map encode_rune rs).

(** The number an element of an [[]int32] holds. *)
Definition rune_of (x : reflect.any) : Z :=
  match x with reflect.Word _ n => n | _ => -1 end.

(** The type assertion [value.([]rune)]: it succeeds only when the dynamic
    type of [value] is identical to [[]int32], and panics ([None])
    otherwise, in particular for every defined slice type. *)
Definition assert_rune_slice (value : reflect.any) : option (list Z) :=
  match value with
  | reflect.Elems (reflect.TSlice (reflect.TScalar reflect.Int32)) xs =>
      Some (List.map rune_of (match xs with Some l => l | None => [] end))
  | _ => None
  end.

End builtin.

(* ===================================================================== *)
(** * Package dbr *)
(* ===================================================================== *)

Module dbr.

Abbreviation any := reflect.any.

(** ** Collaborators declared outside condition.go *)

(** Modelled from the spec: the interface [Dialect] is declared in another
    file of the package.  Section 3 of the specification gives its two
    pure operations. *)
Record Dialect : Type := mkDialect {
  QuoteIdent : string -> string;
  EncodeBool : bool -> string
}.

(** Modelled from the spec: the package constant [placeholder] is declared
    in another file; section 8 of the specification shows the token as a
    question mark. *)
Definition placeholder : string := "?".

(** Modelled from the spec: the error value [ErrColumnNotSpecified] is
    declared in another file.  [ErrOther] stands for the errors that
    Builders written outside this file may return. *)
Inductive error : Set :=
| ErrColumnNotSpecified
| ErrOther (msg : string).

(** Why a call did not return. *)
Inductive panic : Set :=
| LenOfNonSequence          (* reflect: call of Value.Len on a wrong kind *)
| ElemOfNonPointer          (* reflect: call of Value.Elem on a wrong kind *)
| InterfaceOfZeroValue      (* reflect: call of Value.Interface on zero Value *)
| TypeOfZeroValue           (* reflect: call of Value.Type on zero Value *)
| ElemOfElementlessType     (* reflect: Elem of invalid type *)
| InterfaceConversion       (* a failed type assertion *)
| Raised (msg : string).    (* raised by a Builder written outside this file *)

(** What a call of type [func(...) error] does: it returns nil, returns an
    error, or panics. *)
Inductive result : Set :=
| Ok
| Err (e : error)
| Panic (p : panic).

(** Modelled from the spec: the interface [Buffer] and its implementation
    are declared in another file.  Section 3 of the specification describes
    it as two growing sequences, the rendered text and the bound values. *)
Record Buffer : Set := mkBuffer {
  text : string;
  values : list any
}.

Definition empty : Buffer := mkBuffer "" [].

Section Builders.

(** The state of the program that a Builder written by a caller can read
    and change besides the Buffer it is given. *)
Context {W : Type}.

Record state : Type := mkState {
  buf : Buffer;
  world : W
}.

(** [buf.WriteString(s)] *)
Definition WriteString (s : string) (st : state) : state :=
  mkState (mkBuffer (text (buf st) ++ s) (values (buf st))) (world st).

(** [buf.WriteValue(v)] *)
Definition WriteValue (v : any) (st : state) : state :=
  mkState (mkBuffer (text (buf st)) (values (buf st) ++ [v])) (world st).

(** Modelled from the spec: the interface [Builder] and the adapter
    [BuildFunc] are declared in another file; a Builder renders itself
    into a Buffer, given a Dialect, and returns an error or nil. *)
Definition Builder : Type := Dialect -> state -> result * state.

Definition BuildFunc (f : Dialect -> state -> result * state) : Builder := f.

Definition Build (b : Builder) (d : Dialect) (st : state) : result * state :=
  b d st.

(** ** condition.go *)

(** The loop of [buildCond], entered at index [i]. *)
Fixpoint buildCond_range (i : nat) (d : Dialect) (buf : state) (pred : string)
    (cond : list Builder) : result * state :=
  match cond with
  | [] => (Ok, buf)
  | c :: rest =>
      let buf :=
        if (0 <? i)%nat then
          let buf := WriteString " " buf in
          let buf := WriteString pred buf in
          WriteString " " buf
        else buf in
      let buf := WriteString "(" buf in
      match Build c d buf with
      | (Ok, buf) =>
          let buf := WriteString ")" buf in
          buildCond_range (S i) d buf pred rest
      | (err, buf) => (err, buf)
      end
  end.

Definition buildCond (d : Dialect) (buf : state) (pred : string)
    (cond : list Builder) : result * state :=
  buildCond_range 0 d buf pred cond.

Definition And (cond : list Builder) : Builder :=
  BuildFunc (fun d buf => buildCond d buf "AND" cond).

Definition Or (cond : list Builder) : Builder :=
  BuildFunc (fun d buf => buildCond d buf "OR" cond).

Definition buildCmp (d : Dialect) (buf : state) (pred column : string)
    (value : any) : result * state :=
  let buf := WriteString (QuoteIdent d column) buf in
  let buf := WriteString " " buf in
  let buf := WriteString pred buf in
  let buf := WriteString " " buf in
  let buf := WriteString placeholder buf in
  let buf := WriteValue value buf in
  (Ok, buf).

Definition Eq (column : string) (value : any) : Builder :=
  BuildFunc (fun d buf =>
    if reflect.is_nil value then
      let buf := WriteString (QuoteIdent d column) buf in
      let buf := WriteString " IS NULL" buf in
      (Ok, buf)
    else
      let v := reflect.ValueOf value in
      match reflect.Value_Kind v with
      | reflect.Slice =>
          match reflect.Value_Len v with
          | None => (Panic LenOfNonSequence, buf)
          | Some 0 =>
              let buf := WriteString (EncodeBool d false) buf in
              (Ok, buf)
          | Some _ => buildCmp d buf "IN" column value
          end
      | _ => buildCmp d buf "=" column value
      end).

Definition Neq (column : string) (value : any) : Builder :=
  BuildFunc (fun d buf =>
    if reflect.is_nil value then
      let buf := WriteString (QuoteIdent d column) buf in
      let buf := WriteString " IS NOT NULL" buf in
      (Ok, buf)
    else
      let v := reflect.ValueOf value in
      match reflect.Value_Kind v with
      | reflect.Slice =>
          match reflect.Value_Len v with
          | None => (Panic LenOfNonSequence, buf)
          | Some 0 =>
              let buf := WriteString (EncodeBool d true) buf in
              (Ok, buf)
          | Some _ => buildCmp d buf "NOT IN" column value
          end
      | _ => buildCmp d buf "!=" column value
      end).

Definition Gt (column : string) (value : any) : Builder :=
  BuildFunc (fun d buf => buildCmp d buf ">" column value).

Definition Gte (column : string) (value : any) : Builder :=
  BuildFunc (fun d buf => buildCmp d buf ">=" column value).

Definition Lt (column : string) (value : any) : Builder :=
  BuildFunc (fun d buf => buildCmp d buf "<" column value).

Definition Lte (column : string) (value : any) : Builder :=
  BuildFunc (fun d buf => buildCmp d buf "<=" column value).

(** The body of [buildLikeCmp]; [self] stands for the recursive call. *)
Definition buildLikeCmp_body
    (self : Dialect -> state -> string -> string -> any -> result * state)
    (d : Dialect) (buf : state) (pred column : string) (value : any)
    : result * state :=
  if reflect.is_nil value then (Err ErrColumnNotSpecified, buf)
  else
    let v := reflect.ValueOf value in
    match reflect.Value_Kind v with
    | reflect.String =>
        buildCmp d buf pred column value
    | reflect.Ptr | reflect.Interface =>
        match reflect.Value_Elem v with
        | None => (Panic ElemOfNonPointer, buf)
        | Some e =>
            match reflect.Value_Interface e with
            | None => (Panic InterfaceOfZeroValue, buf)
            | Some inner => self d buf pred column inner
            end
        end
    | reflect.Slice =>
        match reflect.Value_Type v with
        | None => (Panic TypeOfZeroValue, buf)
        | Some t =>
            match reflect.Type_Elem t with
            | None => (Panic ElemOfElementlessType, buf)
            | Some elem =>
                match reflect.Type_Kind elem with
                | reflect.Scalar reflect.Uint8 =>
                    buildCmp d buf pred column value
                | reflect.Scalar reflect.Int32 =>
                    match builtin.assert_rune_slice value with
                    | None => (Panic InterfaceConversion, buf)
                    | Some runes =>
                        buildCmp d buf pred column
                          (reflect.Text reflect.TString
                             (builtin.string_of_runes runes))
                    end
                | _ => (Err ErrColumnNotSpecified, buf)
                end
            end
        end
    | _ => (Err ErrColumnNotSpecified, buf)
    end.

(** The number of pointers to follow before [value] stops being one. *)
Fixpoint indirections (value : any) : nat :=
  match value with
  | reflect.Ref _ (Some x) => S (indirections x)
  | _ => 0
  end.

(** [buildLikeCmp] unfolded [n] times.  The body makes its recursive call on
    the target of a pointer only, so a value with [n] indirections never
    reaches the call left at depth 0 (lemma [buildLikeCmp_unfold]). *)
Fixpoint buildLikeCmp_depth (n : nat) (d : Dialect) (buf : state)
    (pred column : string) (value : any) : result * state :=
  match n with
  | 0 => buildLikeCmp_body (fun _ buf _ _ _ => (Panic ElemOfNonPointer, buf))
           d buf pred column value
  | S n => buildLikeCmp_body (buildLikeCmp_depth n) d buf pred column value
  end.

(** [buildLikeCmp]: the recursion follows one pointer per call, so it is
    unfolded as many times as [value] has indirections. *)
Definition buildLikeCmp (d : Dialect) (buf : state) (pred column : string)
    (value : any) : result * state :=
  buildLikeCmp_depth (indirections value) d buf pred column value.

Definition Like (column : string) (value : any) : Builder :=
  BuildFunc (fun d buf => buildLikeCmp d buf "LIKE" column value).

Definition NotLike (column : string) (value : any) : Builder :=
  BuildFunc (fun d buf => buildLikeCmp d buf "NOT LIKE" column value).

End Builders.

Arguments state : clear implicits.
Arguments Builder : clear implicits.

(** ** Vocabulary of the specification *)

(** The two logical combinators, their keyword and their constructor. *)
Inductive logical : Set := AND | OR.

Definition keyword (l : logical) : string :=
  match l with AND => "AND" | OR => "OR" end.

Definition combine {W : Type} (l : logical) : list (Builder W) -> Builder W :=
  match l with AND => And | OR => Or end.

(** The four ordering predicates, their operator and their constructor. *)
Inductive ordering : Set := GT | GTE | LT | LTE.

Definition operator (o : ordering) : string :=
  match o with GT => ">" | GTE => ">=" | LT => "<" | LTE => "<=" end.

Definition compare {W : Type} (o : ordering) : string -> any -> Builder W :=
  match o with GT => Gt | GTE => Gte | LT => Lt | LTE => Lte end.

(** The two pattern predicates. *)
Inductive pattern : Set := LIKE | NOT_LIKE.

Definition pattern_operator (p : pattern) : string :=
  match p with LIKE => "LIKE" | NOT_LIKE => "NOT LIKE" end.

Definition matching {W : Type} (p : pattern) : string -> any -> Builder W :=
  match p with LIKE => Like | NOT_LIKE => NotLike end.

(** A sequence is a value of kind Slice; [null] is the nil interface. *)
Definition is_sequence (v : any) : Prop :=
  reflect.Value_Kind (reflect.ValueOf v) = reflect.Slice.

Definition null : any := reflect.NilInterface.

(** [b] after [t] was appended to its text and [vs] to its bound values. *)
Definition appended (b : Buffer) (t : string) (vs : list any) : Buffer :=
  mkBuffer (text b ++ t) (values b ++ vs).

(** The state [st] after the same appends; the rest of the program state
    is untouched. *)
Definition wrote {W : Type} (st : state W) (t : string) (vs : list any)
    : state W :=
  mkState (appended (buf st) t vs) (world st).

(** The number of positions of [s] at which [p] occurs. *)
Fixpoint occurrences (p s : string) : nat :=
  match s with
  | EmptyString => 0
  | String _ s' => (if String.prefix p s then 1 else 0) + occurrences p s'
  end.

(** The invariant of a Buffer: as many placeholders in the text as bound
    values. *)
Definition balanced (b : Buffer) : Prop :=
  occurrences placeholder (text b) = List.length (values b).

(** A text without placeholder. *)
Definition placeholder_free (s : string) : Prop :=
  occurrences placeholder s = 0.

(** The Builders made of the constructors of this file alone, on columns
    that satisfy [P]. *)
Inductive Built {W : Type} (P : string -> Prop) : Builder W -> Prop :=
| Built_Eq c v : P c -> Built P (Eq c v)
| Built_Neq c v : P c -> Built P (Neq c v)
| Built_compare o c v : P c -> Built P (compare o c v)
| Built_matching p c v : P c -> Built P (matching p c v)
| Built_combine l cs : Forall (Built P) cs -> Built P (combine l cs).

(** A Builder tree: any columns. *)
Definition Generated {W : Type} : Builder W -> Prop :=
  Built (fun _ => True).

(** A Builder tree whose columns, once quoted by [d], hold no placeholder. *)
Definition Generated_clean {W : Type} (d : Dialect) : Builder W -> Prop :=
  Built (fun c => placeholder_free (QuoteIdent d c)).

(** A dialect whose boolean literals hold no placeholder. *)
Definition clean_literals (d : Dialect) : Prop :=
  forall x : bool, placeholder_free (EncodeBool d x).

(** A run that, whatever the state it starts in, returns the same result
    after appending the same text [t] and the same values [vs], and leaves
    the rest of the program state alone; when it returns nil and [Q] holds,
    [t] has as many placeholders as [vs] has values. *)
Definition appends {W : Type} (run : state W -> result * state W) (Q : Prop)
    : Prop :=
  exists (r : result) (t : string) (vs : list any),
    (forall st, run st = (r, wrote st t vs)) /\
    (Q -> r = Ok -> occurrences placeholder t = List.length vs).

(** What the loop of [buildCond] writes before it renders the child at index
    [i]. *)
Definition lead (i : nat) (pred : string) : string :=
  (if (0 <? i)%nat then " " ++ pred ++ " " else "") ++ "(".

(** A child that always appends the text [t] and the values [vs], and
    returns nil. *)
Definition renders {W : Type} (c : Builder W) (d : Dialect) (t : string)
    (vs : list any) : Prop :=
  forall st, fst (Build c d st) = Ok /\
             buf (snd (Build c d st)) = appended (buf st) t vs.

(** [v.Elem().Interface()], [None] when either call panics. *)
Definition deref (value : any) : option any :=
  match reflect.Value_Elem (reflect.ValueOf value) with
  | Some e => reflect.Value_Interface e
  | None => None
  end.

(** The value [[]rune{r1, ..., rn}]; [None] is the nil slice. *)
Definition runes (rs : option (list Z)) : any :=
  reflect.Elems (reflect.TSlice (reflect.TScalar reflect.Int32))
    (option_map (List.map (reflect.Word (reflect.TScalar reflect.Int32))) rs).

(** The kinds of element that a sequence given to Like may have. *)
Definition textual_element (k : reflect.Kind) : bool :=
  match k with
  | reflect.Scalar reflect.Uint8 | reflect.Scalar reflect.Int32 => true
  | _ => false
  end.

(** Text in parentheses. *)
Definition parenthesized (t : string) : string := "(" ++ t ++ ")".

(** The separators of the specification. *)
Definition separator (l : logical) : string :=
  match l with AND => " AND " | OR => " OR " end.

(** Every piece preceded by the separator. *)
Fixpoint prefixed (sep : string) (ts : list string) : string :=
  match ts with
  | [] => ""
  | t :: ts' => sep ++ t ++ prefixed sep ts'
  end.

(** What the loop writes before it renders the child that follows the
    children [before]. *)
Definition opening {W : Type} (l : logical) (before : list (Builder W))
    : string :=
  match before with
  | [] => "("
  | _ :: _ => separator l ++ "("
  end.

(** The condition under which the render of a leaf on column [c] is
    balanced. *)
Definition clean_leaf (d : Dialect) (c : string) : Prop :=
  placeholder_free (QuoteIdent d c) /\ clean_literals d.

(** The values that Like and NotLike bind: a value of kind String, or a
    slice whose elements are of kind Uint8. *)
Definition is_textual (x : any) : bool :=
  match reflect.Value_Kind (reflect.ValueOf x) with
  | reflect.String => true
  | reflect.Slice =>
      match reflect.Value_Type (reflect.ValueOf x) with
      | Some T =>
          match reflect.Type_Elem T with
          | Some E =>
              match reflect.Type_Kind E with
              | reflect.Scalar reflect.Uint8 => true
              | _ => false
              end
          | None => false
          end
      | None => false
      end
  | _ => false
  end.

(** The first result in [rs] that is not nil, or nil when there is none. *)
Fixpoint first_failure (rs : list result) : result :=
  match rs with
  | [] => Ok
  | Ok :: rs' => first_failure rs'
  | r :: _ => r
  end.

(** The Builder trees without Like and NotLike. *)
Inductive Comparing {W : Type} : Builder W -> Prop :=
| Comparing_Eq c v : Comparing (Eq c v)
| Comparing_Neq c v : Comparing (Neq c v)
| Comparing_compare o c v : Comparing (compare o c v)
| Comparing_combine l cs : Forall Comparing cs -> Comparing (combine l cs).

(** The code point of a byte, and [[]rune(s)] for a text [s] of ASCII
    characters. *)
Definition code_point (a : ascii) : Z := Z.of_N (N_of_ascii a).

Definition text_runes (s : string) : list Z :=
  List.map code_point (list_ascii_of_string s).

(** A text of ASCII characters only. *)
Definition is_ascii (s : string) : Prop :=
  Forall (fun a => (N_of_ascii a < 128)%N) (list_ascii_of_string s).

(** The three outcomes of [buildLikeCmp]: one textual value bound after the
    comparison was written, ColumnNotSpecified with nothing written, or a
    panic with nothing written. *)
Definition like_outcome {W : Type} (d : Dialect) (st : state W)
    (pred c : string) (out : result * state W) : Prop :=
  (exists x, out = (Ok, wrote st (QuoteIdent d c ++ " " ++ pred ++ " "
                                   ++ placeholder) [x]) /\
             is_textual x = true) \/
  out = (Err ErrColumnNotSpecified, st) \/
  (exists p, out = (Panic p, st)).

(** ** Sample inputs *)

(** A dialect that writes identifiers as they are. *)
Definition plain : Dialect :=
  mkDialect (fun name => name) (fun x => if x then "TRUE" else "FALSE").

Definition int (n : Z) : any := reflect.Word (reflect.TScalar reflect.Int) n.

Definition str (s : string) : any := reflect.Text reflect.TString s.

Definition fresh : state unit := mkState empty tt.

(** A Builder written by a caller: it writes its name, records in the
    program state that it was invoked, and returns [r]. *)
Definition recorder (name : string) (r : result) : Builder (list string) :=
  fun _ st =>
    (r, mkState (appended (buf st) name []) (world st ++ [name])%list).

(* =================================================================== *)
(** ** Properties *)
(* =================================================================== *)

Lemma append_assoc (a b c : string) : (a ++ b) ++ c = a ++ b ++ c.
Proof. induction a as [|x a IH]; simpl; [reflexivity | now rewrite IH]. Qed.

Lemma append_empty_r (a : string) : a ++ "" = a.
Proof. induction a as [|x a IH]; simpl; [reflexivity | now rewrite IH]. Qed.

Section Writes.
Context {W : Type}.
Implicit Types (st : state W) (d : Dialect).

Lemma WriteString_wrote s st : WriteString s st = wrote st s [].
Proof.
  unfold WriteString, wrote, appended. now rewrite app_nil_r.
Qed.

Lemma WriteValue_wrote v st : WriteValue v st = wrote st "" [v].
Proof.
  unfold WriteValue, wrote, appended. now rewrite append_empty_r.
Qed.

Lemma wrote_wrote st t1 vs1 t2 vs2 :
  wrote (wrote st t1 vs1) t2 vs2 = wrote st (t1 ++ t2) (vs1 ++ vs2).
Proof.
  unfold wrote, appended; simpl.
  now rewrite append_assoc, app_assoc.
Qed.

Lemma wrote_nothing st : wrote st "" [] = st.
Proof.
  destruct st as [[t vs] w]. unfold wrote, appended; simpl.
  now rewrite append_empty_r, app_nil_r.
Qed.

(** What [buildCmp] leaves in the buffer. *)
Lemma buildCmp_wrote d st pred column value :
  buildCmp d st pred column value
  = (Ok, wrote st (QuoteIdent d column ++ " " ++ pred ++ " " ++ placeholder)
           [value]).
Proof.
  unfold buildCmp.
  rewrite !WriteString_wrote, WriteValue_wrote, !wrote_wrote.
  simpl app. rewrite append_empty_r. reflexivity.
Qed.

End Writes.

Section Comparisons.
Context {W : Type}.
Implicit Types (st : state W) (d : Dialect) (c : string) (v : any).

Lemma Value_Len_sequence v :
  is_sequence v ->
  reflect.Value_Len (reflect.ValueOf v) = Some (reflect.data_len v).
Proof.
  unfold is_sequence.
  destruct v; simpl; try discriminate; intros ->; reflexivity.
Qed.

Lemma null_not_sequence : ~ is_sequence null.
Proof. unfold is_sequence; simpl; discriminate. Qed.

Lemma is_nil_null v : reflect.is_nil v = true <-> v = null.
Proof. destruct v; simpl; split; (discriminate || reflexivity). Qed.

(** The case analysis that Eq and Neq share: is the value nil, is it a
    slice, has the slice elements. *)
Ltac equality_cases v :=
  let Hnil := fresh "Hnil" in
  let Hnn := fresh "Hnn" in
  let Hk := fresh "Hk" in
  let Hseq := fresh "Hseq" in
  destruct (reflect.is_nil v) eqn:Hnil;
  [ apply is_nil_null in Hnil; subst v;
    repeat split; try reflexivity;
    [ intros _; rewrite !WriteString_wrote, wrote_wrote; reflexivity
    | intros H; destruct (null_not_sequence H)
    | intros H; destruct (null_not_sequence H)
    | intros H; destruct H; reflexivity ]
  | assert (Hnn : v <> null) by (intros ->; discriminate);
    destruct (reflect.Value_Kind (reflect.ValueOf v)) eqn:Hk;
    try (repeat split; try reflexivity;
         [ intros E; destruct (Hnn E)
         | unfold is_sequence; rewrite Hk; discriminate
         | unfold is_sequence; rewrite Hk; discriminate
         | intros; apply buildCmp_wrote ]);
    assert (Hseq : is_sequence v) by exact Hk;
    rewrite (Value_Len_sequence v Hseq);
    destruct (reflect.data_len v);
    repeat split; try reflexivity;
    [ intros E; destruct (Hnn E)
    | intros _ _; now rewrite WriteString_wrote
    | intros _ E; destruct E; reflexivity
    | intros _ E; destruct (E Hseq)
    | intros E; destruct (Hnn E)
    | discriminate
    | intros _ _; apply buildCmp_wrote
    | intros _ E; destruct (E Hseq) ] ].

(** C7: for every column and every value, Gt, Gte, Lt and Lte write the
    quoted column, a space, their operator, a space and one placeholder,
    bind the value as one bound value, and return nil. *)
Theorem ordering_renders_unconditionally (o : ordering) c v d st :
  Build (compare o c v) d st
  = (Ok, wrote st (QuoteIdent d c ++ " " ++ operator o ++ " " ++ placeholder)
           [v]).
Proof.
  destruct o; unfold compare, Gt, Gte, Lt, Lte, Build, BuildFunc;
    apply buildCmp_wrote.
Qed.

(** C1: Eq always returns nil and renders by four cases: a null value
    gives the quoted column and IS NULL with nothing bound; a sequence
    without elements gives the false literal of the dialect with nothing
    bound; a sequence with elements gives the quoted column, IN and one
    placeholder, the whole sequence being one bound value; any other
    value gives the quoted column, the equals sign and one placeholder,
    the value being bound. *)
Theorem Eq_case_split c v d st :
  fst (Build (Eq c v) d st) = Ok /\
  (v = null ->
   Build (Eq c v) d st = (Ok, wrote st (QuoteIdent d c ++ " IS NULL") [])) /\
  (is_sequence v -> reflect.data_len v = 0 ->
   Build (Eq c v) d st = (Ok, wrote st (EncodeBool d false) [])) /\
  (is_sequence v -> reflect.data_len v <> 0 ->
   Build (Eq c v) d st
   = (Ok, wrote st (QuoteIdent d c ++ " IN " ++ placeholder) [v])) /\
  (v <> null -> ~ is_sequence v ->
   Build (Eq c v) d st
   = (Ok, wrote st (QuoteIdent d c ++ " = " ++ placeholder) [v])).
Proof.
  unfold Build, Eq, BuildFunc.
  equality_cases v.
Qed.

(** C3: Neq always returns nil and mirrors the four cases of Eq: IS NOT
    NULL for a null value, the true literal of the dialect for a sequence
    without elements, NOT IN and one placeholder binding the sequence as
    one value for a sequence with elements, and the operator != with one
    placeholder binding the value otherwise. *)
Theorem Neq_case_split c v d st :
  fst (Build (Neq c v) d st) = Ok /\
  (v = null ->
   Build (Neq c v) d st
   = (Ok, wrote st (QuoteIdent d c ++ " IS NOT NULL") [])) /\
  (is_sequence v -> reflect.data_len v = 0 ->
   Build (Neq c v) d st = (Ok, wrote st (EncodeBool d true) [])) /\
  (is_sequence v -> reflect.data_len v <> 0 ->
   Build (Neq c v) d st
   = (Ok, wrote st (QuoteIdent d c ++ " NOT IN " ++ placeholder) [v])) /\
  (v <> null -> ~ is_sequence v ->
   Build (Neq c v) d st
   = (Ok, wrote st (QuoteIdent d c ++ " != " ++ placeholder) [v])).
Proof.
  unfold Build, Neq, BuildFunc.
  equality_cases v.
Qed.

End Comparisons.

Section Patterns.
Context {W : Type}.
Implicit Types (st : state W) (d : Dialect) (c : string) (v : any).

Lemma deref_target value inner :
  deref value = Some inner ->
  exists T, value = reflect.Ref T (Some inner) /\
            reflect.Type_Kind T = reflect.Ptr.
Proof.
  unfold deref.
  destruct value as [|T n|T s|T [x|]|T xs|T n]; simpl; try discriminate;
    destruct (reflect.Type_Kind T) eqn:Hk; simpl; try discriminate.
  unfold reflect.points_to_interface; simpl.
  destruct (match reflect.Type_Elem T with
            | Some E =>
                match reflect.Type_Kind E with
                | reflect.Interface => true
                | _ => false
                end
            | None => false
            end); simpl.
  - intros [= ->]. now exists T.
  - destruct x; simpl; try discriminate; intros [= <-]; now exists T.
Qed.

Lemma deref_indirections value inner :
  deref value = Some inner -> indirections value = S (indirections inner).
Proof.
  intros H. destruct (deref_target _ _ H) as (T & -> & _). reflexivity.
Qed.

(** The body of [buildLikeCmp] calls [self] on [deref value] only. *)
Lemma buildLikeCmp_body_ext f g d st pred column value :
  (forall inner, deref value = Some inner ->
                 f d st pred column inner = g d st pred column inner) ->
  buildLikeCmp_body f d st pred column value
  = buildLikeCmp_body g d st pred column value.
Proof.
  intros H. unfold buildLikeCmp_body.
  destruct (reflect.is_nil value); [reflexivity|].
  unfold deref in H.
  destruct (reflect.Value_Kind (reflect.ValueOf value)); try reflexivity;
    destruct (reflect.Value_Elem (reflect.ValueOf value)) as [e|];
    try reflexivity;
    destruct (reflect.Value_Interface e) as [inner|]; try reflexivity;
    now apply H.
Qed.

Lemma buildLikeCmp_depth_enough n :
  forall value d st pred column,
    indirections value <= n ->
    buildLikeCmp_depth n d st pred column value
    = buildLikeCmp d st pred column value.
Proof.
  induction n as [|n IH]; intros value d st pred column Hle.
  - unfold buildLikeCmp. now replace (indirections value) with 0 by lia.
  - unfold buildLikeCmp.
    destruct (indirections value) as [|m] eqn:Hm; simpl;
      apply buildLikeCmp_body_ext; intros inner Hd;
      apply deref_indirections in Hd; rewrite Hm in Hd;
      [discriminate|].
    injection Hd as ->.
    rewrite IH by lia. reflexivity.
Qed.

(** The recursion equation of [buildLikeCmp]: the function of the source,
    with the recursive call in place of [self]. *)
Lemma buildLikeCmp_unfold d st pred column value :
  buildLikeCmp d st pred column value
  = buildLikeCmp_body buildLikeCmp d st pred column value.
Proof.
  rewrite <- (buildLikeCmp_depth_enough (S (indirections value)))
    by lia.
  simpl. apply buildLikeCmp_body_ext. intros inner Hd.
  apply deref_indirections in Hd.
  apply buildLikeCmp_depth_enough. lia.
Qed.

Lemma matching_unfold (p : pattern) c v d st :
  Build (matching p c v) d st
  = buildLikeCmp d st (pattern_operator p) c v.
Proof. destruct p; reflexivity. Qed.

(** *** What Like and NotLike do, shape by shape *)

Lemma matching_null p c d st :
  Build (matching p c null) d st = (Err ErrColumnNotSpecified, st).
Proof. rewrite matching_unfold, buildLikeCmp_unfold. reflexivity. Qed.

Lemma matching_text p c T s d st :
  reflect.Type_Kind T = reflect.String ->
  Build (matching p c (reflect.Text T s)) d st
  = (Ok, wrote st (QuoteIdent d c ++ " " ++ pattern_operator p ++ " "
                     ++ placeholder) [reflect.Text T s]).
Proof.
  intros Hk. rewrite matching_unfold, buildLikeCmp_unfold.
  unfold buildLikeCmp_body; simpl. rewrite Hk. apply buildCmp_wrote.
Qed.

(** One level of indirection is removed and the dispatch starts again. *)
Lemma matching_pointer p c T x d st :
  reflect.Type_Kind T = reflect.Ptr ->
  deref (reflect.Ref T (Some x)) = Some x ->
  Build (matching p c (reflect.Ref T (Some x))) d st
  = Build (matching p c x) d st.
Proof.
  intros Hk Hd. rewrite !matching_unfold.
  rewrite buildLikeCmp_unfold at 1.
  unfold buildLikeCmp_body at 1. unfold deref in Hd.
  simpl reflect.is_nil. cbv iota.
  cbv zeta.
  replace (reflect.Value_Kind (reflect.ValueOf (reflect.Ref T (Some x))))
    with reflect.Ptr by (simpl; now rewrite Hk).
  destruct (reflect.Value_Elem (reflect.ValueOf (reflect.Ref T (Some x))))
    as [e|]; [|discriminate].
  rewrite Hd. reflexivity.
Qed.

(** A pointer to an interface variable that holds nil takes the path of
    the null value. *)
Lemma matching_pointer_to_nil_interface p c d st :
  Build (matching p c
           (reflect.Ref (reflect.TPtr reflect.TInterface) (Some null))) d st
  = (Err ErrColumnNotSpecified, st).
Proof.
  rewrite matching_pointer by reflexivity. apply matching_null.
Qed.

Lemma matching_bytes p c T E xs d st :
  reflect.Type_Kind T = reflect.Slice ->
  reflect.Type_Elem T = Some E ->
  reflect.Type_Kind E = reflect.Scalar reflect.Uint8 ->
  Build (matching p c (reflect.Elems T xs)) d st
  = (Ok, wrote st (QuoteIdent d c ++ " " ++ pattern_operator p ++ " "
                     ++ placeholder) [reflect.Elems T xs]).
Proof.
  intros Hk He Hek. rewrite matching_unfold, buildLikeCmp_unfold.
  unfold buildLikeCmp_body; simpl. rewrite Hk, He, Hek.
  apply buildCmp_wrote.
Qed.

Lemma assert_rune_slice_runes rs :
  builtin.assert_rune_slice (runes rs)
  = Some (match rs with Some l => l | None => [] end).
Proof.
  destruct rs as [l|]; simpl; [|reflexivity].
  rewrite map_map; simpl. now rewrite map_id.
Qed.

Lemma matching_runes p c rs d st :
  Build (matching p c (runes rs)) d st
  = (Ok, wrote st (QuoteIdent d c ++ " " ++ pattern_operator p ++ " "
                     ++ placeholder)
           [reflect.Text reflect.TString
              (builtin.string_of_runes
                 (match rs with Some l => l | None => [] end))]).
Proof.
  rewrite matching_unfold, buildLikeCmp_unfold.
  unfold buildLikeCmp_body.
  rewrite assert_rune_slice_runes. simpl. apply buildCmp_wrote.
Qed.

Lemma matching_other_sequence p c T E xs d st :
  reflect.Type_Kind T = reflect.Slice ->
  reflect.Type_Elem T = Some E ->
  textual_element (reflect.Type_Kind E) = false ->
  Build (matching p c (reflect.Elems T xs)) d st
  = (Err ErrColumnNotSpecified, st).
Proof.
  intros Hk He Hek. rewrite matching_unfold, buildLikeCmp_unfold.
  unfold buildLikeCmp_body; simpl. rewrite Hk, He.
  destruct (reflect.Type_Kind E) as [|[]| | | | | | | | |];
    try reflexivity; discriminate.
Qed.

(** Numbers, booleans, structs, arrays, maps, channels and functions. *)
Lemma matching_other_shape p c v d st :
  match reflect.Value_Kind (reflect.ValueOf v) with
  | reflect.String | reflect.Ptr | reflect.Interface | reflect.Slice =>
      False
  | _ => True
  end ->
  Build (matching p c v) d st = (Err ErrColumnNotSpecified, st).
Proof.
  intros Hk. rewrite matching_unfold, buildLikeCmp_unfold.
  unfold buildLikeCmp_body.
  destruct (reflect.is_nil v); [reflexivity|].
  destruct (reflect.Value_Kind (reflect.ValueOf v)); try reflexivity;
    contradiction.
Qed.

End Patterns.

Section Panics.
Context {W : Type}.
Implicit Types (st : state W) (d : Dialect) (c : string).

(** C6: a nil pointer given to Like or NotLike does not reach the path of the
    null value, and neither does a pointer to a nil pointer.  The guard
    [value == nil] is false for a nil pointer, [v.Elem()] is the zero Value,
    and [Interface] panics on the zero Value: the call does not return
    ColumnNotSpecified, it does not return at all. *)
Theorem matching_nil_pointer_panics (p : pattern) c (E : reflect.rtype) d st :
  Build (matching p c (reflect.Ref (reflect.TPtr E) None)) d st
  = (Panic InterfaceOfZeroValue, st) /\
  Build (matching p c
           (reflect.Ref (reflect.TPtr (reflect.TPtr E))
              (Some (reflect.Ref (reflect.TPtr E) None)))) d st
  = (Panic InterfaceOfZeroValue, st).
Proof.
  assert (Hnil : Build (matching p c (reflect.Ref (reflect.TPtr E) None)) d st
                 = (Panic InterfaceOfZeroValue, st))
    by (rewrite matching_unfold, buildLikeCmp_unfold; reflexivity).
  split; [exact Hnil|].
  rewrite matching_pointer by reflexivity. exact Hnil.
Qed.

(** C2: a sequence of runes whose type is a defined type ([type Runes []rune])
    or whose elements have a defined type of kind Int32 passes the test on
    the kind of its elements and then fails the type assertion
    [value.([]rune)]: Like and NotLike panic instead of binding its text. *)
Theorem matching_defined_rune_slice_panics (p : pattern) c (name : string)
    (xs : option (list any)) d st :
  Build (matching p c
           (reflect.Elems
              (reflect.TDefined name
                 (reflect.TSlice (reflect.TScalar reflect.Int32))) xs)) d st
  = (Panic InterfaceConversion, st) /\
  Build (matching p c
           (reflect.Elems
              (reflect.TSlice
                 (reflect.TDefined name (reflect.TScalar reflect.Int32))) xs))
    d st
  = (Panic InterfaceConversion, st).
Proof.
  split; rewrite matching_unfold, buildLikeCmp_unfold; reflexivity.
Qed.

(** C10: two empty sequences with the same element type, rune, are not
    treated alike.  The empty [[]rune] is accepted and binds the empty text;
    the empty sequence of a defined type [type name []rune] makes Like and
    NotLike panic. *)
Theorem matching_empty_rune_sequences_differ (p : pattern) c (name : string)
    d st :
  let plain := reflect.TSlice (reflect.TScalar reflect.Int32) in
  let defined := reflect.TDefined name plain in
  reflect.Type_Elem plain = reflect.Type_Elem defined /\
  Build (matching p c (reflect.Elems plain (Some []))) d st
  = (Ok, wrote st (QuoteIdent d c ++ " " ++ pattern_operator p ++ " "
                     ++ placeholder) [reflect.Text reflect.TString ""]) /\
  Build (matching p c (reflect.Elems defined (Some []))) d st
  = (Panic InterfaceConversion, st).
Proof.
  cbv zeta. split; [reflexivity|]. split.
  - apply (matching_runes p c (Some [])).
  - rewrite matching_unfold, buildLikeCmp_unfold. reflexivity.
Qed.

End Panics.

Section Combinators.
Context {W : Type}.
Implicit Types (st : state W) (d : Dialect) (c : Builder W)
  (cs : list (Builder W)).

Lemma appended_appended b t1 vs1 t2 vs2 :
  appended (appended b t1 vs1) t2 vs2 = appended b (t1 ++ t2) (vs1 ++ vs2).
Proof.
  unfold appended; simpl. now rewrite append_assoc, app_assoc.
Qed.

Lemma buf_wrote st t vs : buf (wrote st t vs) = appended (buf st) t vs.
Proof. reflexivity. Qed.

(** The separator before every child but the first. *)
Lemma separator_written pred st :
  WriteString " " (WriteString pred (WriteString " " st))
  = wrote st (" " ++ pred ++ " ") [].
Proof. rewrite !WriteString_wrote, !wrote_wrote. reflexivity. Qed.

Lemma concat_cons_prefixed sep t ts :
  String.concat sep (t :: ts) = t ++ prefixed sep ts.
Proof.
  revert t. induction ts as [|u ts IH]; intros t.
  - simpl. now rewrite append_empty_r.
  - change (String.concat sep (t :: u :: ts))
      with (t ++ sep ++ String.concat sep (u :: ts)).
    now rewrite IH.
Qed.

(** The loop, once past its first iteration, precedes every child with the
    separator. *)
Lemma buildCond_range_renders d pred cs (outs : list (string * list any)) :
  Forall2 (fun c o => renders c d (fst o) (snd o)) cs outs ->
  forall i st,
    fst (buildCond_range (S i) d st pred cs) = Ok /\
    buf (snd (buildCond_range (S i) d st pred cs))
    = appended (buf st)
        (prefixed (" " ++ pred ++ " ")
           (List.map (fun o => parenthesized (fst o)) outs))
        (List.concat (List.map snd outs)).
Proof.
  induction 1 as [|c o cs outs Hc _ IH]; intros i st.
  - simpl. unfold appended. rewrite append_empty_r, app_nil_r.
    now destruct st as [[t vs] w].
  - cbn [buildCond_range]. change (0 <? S i)%nat with true. cbv iota zeta.
    rewrite separator_written.
    rewrite !WriteString_wrote, wrote_wrote.
    match goal with |- context [Build c d ?s] => destruct (Hc s) as [Hr Hb] end.
    destruct (Build c d _) as [r st2]. cbn [fst snd] in Hr, Hb. subst r.
    destruct (IH (S i) (WriteString ")" st2)) as [IHr IHb].
    split; [exact IHr|].
    rewrite IHb, WriteString_wrote, !buf_wrote, Hb, !buf_wrote,
      !appended_appended.
    unfold parenthesized. cbn [List.map List.concat prefixed].
    rewrite ?append_assoc, ?app_nil_r. simpl app.
    rewrite ?append_assoc. reflexivity.
Qed.

Lemma separator_keyword l : " " ++ keyword l ++ " " = separator l.
Proof. now destruct l. Qed.

Lemma combine_unfold l cs d st :
  Build (combine l cs) d st = buildCond_range 0 d st (keyword l) cs.
Proof. now destruct l. Qed.

(** C4: And and Or render every child in parentheses and write their
    separator between consecutive children only; without children they write
    nothing and return nil.  The children are any Builders that render a
    text and bound values of their own. *)
Theorem combine_joins_children (l : logical) cs
    (outs : list (string * list any)) d st :
  Forall2 (fun c o => renders c d (fst o) (snd o)) cs outs ->
  fst (Build (combine l cs) d st) = Ok /\
  buf (snd (Build (combine l cs) d st))
  = appended (buf st)
      (String.concat (separator l)
         (List.map (fun o => parenthesized (fst o)) outs))
      (List.concat (List.map snd outs)) /\
  (cs = [] -> Build (combine l cs) d st = (Ok, st)).
Proof.
  intros H. rewrite combine_unfold, <- separator_keyword.
  destruct H as [|c o cs outs Hc Hrest].
  - simpl. unfold appended. rewrite append_empty_r, app_nil_r.
    destruct st as [[t vs] w]. repeat split.
  - cbn [buildCond_range]. change (0 <? 0)%nat with false. cbv iota zeta.
    rewrite !WriteString_wrote.
    match goal with |- context [Build c d ?s] => destruct (Hc s) as [Hr Hb] end.
    destruct (Build c d _) as [r st2]. cbn [fst snd] in Hr, Hb. subst r.
    destruct (buildCond_range_renders d (keyword l) cs outs Hrest 0
                (WriteString ")" st2)) as [IHr IHb].
    split; [exact IHr|]. split; [|discriminate].
    rewrite IHb, WriteString_wrote, !buf_wrote, Hb, !buf_wrote,
      !appended_appended.
    cbn [List.map List.concat].
    rewrite concat_cons_prefixed. unfold parenthesized.
    rewrite ?append_assoc, ?app_nil_r. simpl app.
    rewrite ?append_assoc. reflexivity.
Qed.

End Combinators.

Section ShortCircuit.
Context {W : Type}.
Implicit Types (st : state W) (d : Dialect) (c : Builder W)
  (cs : list (Builder W)).

(** The loop over [before ++ rest] is the loop over [before] followed, when
    it returned nil, by the loop over [rest] at the next index. *)
Lemma buildCond_range_app d pred before rest :
  forall i st,
    buildCond_range i d st pred (before ++ rest)
    = match buildCond_range i d st pred before with
      | (Ok, st1) => buildCond_range (i + List.length before) d st1 pred rest
      | other => other
      end.
Proof.
  induction before as [|c before IH]; intros i st.
  - simpl. now rewrite Nat.add_0_r.
  - cbn [app buildCond_range List.length].
    destruct (Build c d _) as [[| e | p] st2]; try reflexivity.
    rewrite IH. now rewrite Nat.add_succ_r.
Qed.

(** C5: when the children before [c] rendered without error and [c] returns
    an error, And and Or return that error as it is, and the state is the one
    [c] left: the text written so far stays in the Buffer, no closing
    parenthesis is added, and the children after [c] have no effect, whatever
    they are. *)
Theorem combine_stops_at_first_error (l : logical) (before after : list (Builder W))
    c d st st1 st2 (e : error) :
  Build (combine l before) d st = (Ok, st1) ->
  Build c d (wrote st1 (opening l before) []) = (Err e, st2) ->
  Build (combine l (before ++ c :: after)) d st = (Err e, st2).
Proof.
  rewrite !combine_unfold. intros Hbefore Hc.
  rewrite buildCond_range_app, Hbefore.
  cbn [buildCond_range Nat.add].
  assert (Hopen :
    WriteString "("
      (if (0 <? List.length before)%nat
       then WriteString " " (WriteString (keyword l) (WriteString " " st1))
       else st1)
    = wrote st1 (opening l before) []).
  { destruct before as [|b before]; cbn [List.length opening].
    - change (0 <? 0)%nat with false. cbv iota. now rewrite WriteString_wrote.
    - change (0 <? S (List.length before))%nat with true. cbv iota.
      rewrite separator_written, WriteString_wrote, wrote_wrote.
      now rewrite separator_keyword. }
  cbv zeta. rewrite Hopen, Hc. reflexivity.
Qed.

End ShortCircuit.

Lemma prefix_empty (s : string) : String.prefix "" s = true.
Proof. now destruct s. Qed.

Lemma prefix_placeholder (x : ascii) (s : string) :
  String.prefix placeholder (String x s)
  = if ascii_dec "?"%char x then true else false.
Proof.
  unfold placeholder. cbn [String.prefix].
  destruct (ascii_dec "?"%char x); [apply prefix_empty | reflexivity].
Qed.

(** The placeholder is one character long, so no occurrence of it straddles
    two pieces of text. *)
Lemma occurrences_app (a b : string) :
  occurrences placeholder (a ++ b)
  = occurrences placeholder a + occurrences placeholder b.
Proof.
  induction a as [|x a IH]; [reflexivity|].
  change (String x a ++ b) with (String x (a ++ b)).
  cbn [occurrences]. rewrite !prefix_placeholder, IH. lia.
Qed.

Section Appenders.
Context {W : Type}.
Implicit Types (st : state W) (d : Dialect) (b : Builder W)
  (cs : list (Builder W)) (run : state W -> result * state W) (Q : Prop).

Lemma appends_stop (r : result) Q :
  r <> Ok -> appends (fun st => (r, st)) Q.
Proof.
  intros Hr. exists r, "", []. split.
  - intros st. now rewrite wrote_nothing.
  - intros _ E. destruct (Hr E).
Qed.

Lemma appends_ext run run' Q :
  (forall st, run st = run' st) -> appends run' Q -> appends run Q.
Proof.
  intros Heq (r & t & vs & Hrun & Hbal). exists r, t, vs.
  split; [|exact Hbal]. intros st. now rewrite Heq.
Qed.

Lemma appends_weaken run (Q Q' : Prop) :
  (Q' -> Q) -> appends run Q -> appends run Q'.
Proof.
  intros HQ (r & t & vs & Hrun & Hbal). exists r, t, vs. auto.
Qed.

Lemma appends_WriteString (s : string) :
  appends (fun st => (Ok, WriteString s st)) (placeholder_free s).
Proof.
  exists Ok, s, []. split.
  - intros st. now rewrite WriteString_wrote.
  - intros Hs _. exact Hs.
Qed.

Lemma appends_buildCmp d pred column value :
  placeholder_free pred ->
  appends (fun st => buildCmp d st pred column value)
    (placeholder_free (QuoteIdent d column)).
Proof.
  intros Hpred.
  exists Ok, (QuoteIdent d column ++ " " ++ pred ++ " " ++ placeholder),
    [value].
  split; [intros st; apply buildCmp_wrote|].
  intros Hq _. unfold placeholder_free in *.
  rewrite !occurrences_app, Hq, Hpred. reflexivity.
Qed.

Lemma equality_appends d c v (is_null in_list op : string) (empty_list : bool) :
  placeholder_free is_null -> placeholder_free in_list ->
  placeholder_free op ->
  appends
    (fun st =>
       if reflect.is_nil v then
         let st := WriteString (QuoteIdent d c) st in
         let st := WriteString is_null st in
         (Ok, st)
       else
         let x := reflect.ValueOf v in
         match reflect.Value_Kind x with
         | reflect.Slice =>
             match reflect.Value_Len x with
             | None => (Panic LenOfNonSequence, st)
             | Some 0 =>
                 let st := WriteString (EncodeBool d empty_list) st in
                 (Ok, st)
             | Some _ => buildCmp d st in_list c v
             end
         | _ => buildCmp d st op c v
         end)
    (clean_leaf d c).
Proof.
  intros Hnull Hin Hop.
  assert (Hcmp : forall pred, placeholder_free pred ->
            appends (fun st => buildCmp d st pred c v) (clean_leaf d c))
    by (intros pred Hpred;
        apply (appends_weaken _ (placeholder_free (QuoteIdent d c)));
        [now intros [? _] | now apply appends_buildCmp]).
  destruct (reflect.is_nil v).
  - exists Ok, (QuoteIdent d c ++ is_null), []. split.
    + intros st. cbv zeta. now rewrite !WriteString_wrote, wrote_wrote.
    + intros [Hq _] _. unfold placeholder_free in *.
      now rewrite occurrences_app, Hq, Hnull.
  - cbv zeta.
    destruct (reflect.Value_Kind (reflect.ValueOf v)); try now apply Hcmp.
    destruct (reflect.Value_Len (reflect.ValueOf v)) as [[|n]|].
    + apply (appends_weaken _ (placeholder_free (EncodeBool d empty_list)));
        [intros [_ Hb]; apply Hb | apply appends_WriteString].
    + now apply Hcmp.
    + apply appends_stop. discriminate.
Qed.

Lemma Eq_appends c v d : appends (W := W) (Build (Eq c v) d) (clean_leaf d c).
Proof. now apply (equality_appends d c v " IS NULL" "IN" "=" false). Qed.

Lemma Neq_appends c v d : appends (W := W) (Build (Neq c v) d) (clean_leaf d c).
Proof. now apply (equality_appends d c v " IS NOT NULL" "NOT IN" "!=" true). Qed.

Lemma compare_appends o c v d :
  appends (W := W) (Build (compare o c v) d) (clean_leaf d c).
Proof.
  apply (appends_weaken _ (placeholder_free (QuoteIdent d c)));
    [now intros [? _]|].
  destruct o; now apply appends_buildCmp.
Qed.

(** Like and NotLike on a value with [n] indirections. *)
Lemma buildLikeCmp_appends d (p : pattern) c (n : nat) :
  forall v,
    indirections v = n ->
    appends (fun st => buildLikeCmp d st (pattern_operator p) c v)
      (placeholder_free (QuoteIdent d c)).
Proof.
  assert (Hop : placeholder_free (pattern_operator p)) by now destruct p.
  induction n as [|n IH]; intros v Hn.
  all: apply (appends_ext _ _ _ (fun st => buildLikeCmp_unfold d st _ c v)).
  all: unfold buildLikeCmp_body.
  all: destruct (reflect.is_nil v); [apply appends_stop; discriminate|].
  all: cbv zeta.
  all: destruct (reflect.Value_Kind (reflect.ValueOf v));
    try (apply appends_stop; discriminate);
    try (now apply appends_buildCmp).
  (* a pointer or an interface: one indirection less *)
  all: try (destruct (reflect.Value_Elem (reflect.ValueOf v)) as [e|] eqn:He;
            [|apply appends_stop; discriminate];
            destruct (reflect.Value_Interface e) as [inner|] eqn:Hi;
            [|apply appends_stop; discriminate];
            assert (Hd : deref v = Some inner)
              by (unfold deref; now rewrite He);
            apply deref_indirections in Hd; rewrite Hn in Hd;
            [discriminate || (injection Hd as Hd; now apply IH)]).
  (* a slice: the kind of its elements decides *)
  all: destruct (reflect.Value_Type (reflect.ValueOf v)) as [T|];
    [|apply appends_stop; discriminate].
  all: destruct (reflect.Type_Elem T) as [E|];
    [|apply appends_stop; discriminate].
  all: destruct (reflect.Type_Kind E) as [|[]| | | | | | | | |];
    try (apply appends_stop; discriminate);
    try (now apply appends_buildCmp).
  all: destruct (builtin.assert_rune_slice v);
    [now apply appends_buildCmp | apply appends_stop; discriminate].
Qed.

Lemma matching_appends p c v d :
  appends (W := W) (Build (matching p c v) d) (clean_leaf d c).
Proof.
  apply (appends_weaken _ (placeholder_free (QuoteIdent d c)));
    [now intros [? _]|].
  apply (appends_ext _ _ _ (matching_unfold p c v d)).
  now apply (buildLikeCmp_appends d p c (indirections v)).
Qed.

End Appenders.

Section Trees.
Context {W : Type}.
Implicit Types (st : state W) (d : Dialect) (b : Builder W)
  (cs : list (Builder W)) (P : string -> Prop).

(** Induction on the Builders made of the constructors of this file, with the
    hypothesis available for every child of a combinator. *)
Lemma Built_induction P (R : Builder W -> Prop) :
  (forall c v, P c -> R (Eq c v)) ->
  (forall c v, P c -> R (Neq c v)) ->
  (forall o c v, P c -> R (compare o c v)) ->
  (forall p c v, P c -> R (matching p c v)) ->
  (forall l cs, Forall (Built P) cs -> Forall R cs -> R (combine l cs)) ->
  forall b, Built P b -> R b.
Proof.
  intros HEq HNeq Hcmp Hmat Hcomb.
  fix IH 2. intros b [c v Hc|c v Hc|o c v Hc|p c v Hc|l cs Hcs]; auto.
  apply Hcomb; [exact Hcs|].
  induction Hcs as [|x xs Hx Hxs IHxs]; constructor;
    [apply IH; exact Hx | exact IHxs].
Qed.

Lemma Built_weaken (P P' : string -> Prop) b :
  (forall c, P c -> P' c) -> Built P b -> Built P' b.
Proof.
  intros HP. revert b. apply Built_induction; intros; constructor; auto.
Qed.

Lemma lead_written i pred st :
  WriteString "("
    (if (0 <? i)%nat
     then WriteString " " (WriteString pred (WriteString " " st))
     else st)
  = wrote st (lead i pred) [].
Proof.
  unfold lead. destruct (0 <? i)%nat.
  - now rewrite separator_written, WriteString_wrote, wrote_wrote.
  - now rewrite WriteString_wrote.
Qed.

Lemma lead_free i (l : logical) : placeholder_free (lead i (keyword l)).
Proof. unfold lead. now destruct (0 <? i)%nat, l. Qed.

(** The loop of [buildCond] over children that append. *)
Lemma buildCond_range_appends d (l : logical) cs (Q : Prop) :
  Forall (fun c => appends (Build c d) Q) cs ->
  forall i, appends (fun st => buildCond_range i d st (keyword l) cs) Q.
Proof.
  induction 1 as [|c cs (r & t & vs & Hrun & Hbal) _ IH]; intros i.
  - exists Ok, "", []. split; [|reflexivity].
    intros st. now rewrite wrote_nothing.
  - destruct (IH (S i)) as (r' & t' & vs' & Hrun' & Hbal').
    assert (Hstep : forall st,
      buildCond_range i d st (keyword l) (c :: cs)
      = match r with
        | Ok => buildCond_range (S i) d
                  (wrote st (lead i (keyword l) ++ t ++ ")") vs)
                  (keyword l) cs
        | _ => (r, wrote st (lead i (keyword l) ++ t) vs)
        end).
    { intros st. cbn [buildCond_range]. cbv zeta.
      rewrite lead_written, Hrun.
      destruct r; rewrite ?WriteString_wrote, !wrote_wrote, ?app_nil_r;
        reflexivity. }
    destruct r as [|e|p].
    + exists r', ((lead i (keyword l) ++ t ++ ")") ++ t'), (vs ++ vs')%list.
      split.
      * intros st. now rewrite Hstep, Hrun', wrote_wrote.
      * intros HQ Hr.
        rewrite !occurrences_app, (lead_free i l), Hbal, Hbal', length_app
          by auto.
        change (occurrences placeholder ")") with 0. lia.
    + exists (Err e), (lead i (keyword l) ++ t), vs.
      split; [exact Hstep | discriminate].
    + exists (Panic p), (lead i (keyword l) ++ t), vs.
      split; [exact Hstep | discriminate].
Qed.

(** Every Builder tree appends a text and bound values that depend on the
    tree and the dialect alone. *)
Lemma Built_appends P b d :
  Built P b ->
  appends (Build b d)
    ((forall c, P c -> placeholder_free (QuoteIdent d c)) /\
     clean_literals d).
Proof.
  revert b. apply Built_induction.
  - intros c v Hc. apply (appends_weaken _ (clean_leaf d c));
      [intros [Hq Hl]; split; auto | apply Eq_appends].
  - intros c v Hc. apply (appends_weaken _ (clean_leaf d c));
      [intros [Hq Hl]; split; auto | apply Neq_appends].
  - intros o c v Hc. apply (appends_weaken _ (clean_leaf d c));
      [intros [Hq Hl]; split; auto | apply compare_appends].
  - intros p c v Hc. apply (appends_weaken _ (clean_leaf d c));
      [intros [Hq Hl]; split; auto | apply matching_appends].
  - intros l cs _ Hcs.
    apply (appends_ext _ _ _ (combine_unfold l cs d)).
    now apply buildCond_range_appends.
Qed.

(** C8: when the boolean literals of the dialect and the quoted columns of
    the tree hold no placeholder, every render of a Builder made of And, Or,
    Eq, Neq, Gt, Gte, Lt, Lte, Like and NotLike that returns nil only appends
    to the Buffer, and the text it appends holds exactly as many placeholders
    as it appends bound values; hence a Buffer with as many placeholders as
    bound values stays so. *)
Theorem generated_render_keeps_balance b d st st' :
  Generated_clean d b ->
  clean_literals d ->
  Build b d st = (Ok, st') ->
  (exists t vs, st' = wrote st t vs /\
                occurrences placeholder t = List.length vs) /\
  (balanced (buf st) -> balanced (buf st')).
Proof.
  intros Hb Hd Hrun.
  destruct (Built_appends _ b d Hb) as (r & t & vs & Hall & Hbal).
  rewrite Hall in Hrun. injection Hrun as -> <-.
  assert (Ht : occurrences placeholder t = List.length vs)
    by (apply Hbal; [split; [now intros c Hc | exact Hd] | reflexivity]).
  split; [now exists t, vs|].
  unfold balanced. cbn [buf wrote appended text values].
  rewrite occurrences_app, length_app. lia.
Qed.

(** C9: the render of a Builder tree is a function of the tree and the
    dialect: started twice on an empty Buffer, in whatever state the rest of
    the program is, it returns the same result and leaves the same text and
    the same bound values, and it leaves the rest of the program state as it
    found it. *)
Theorem generated_render_is_deterministic b d (w1 w2 : W) :
  Generated b ->
  let run1 := Build b d (mkState empty w1) in
  let run2 := Build b d (mkState empty w2) in
  fst run1 = fst run2 /\
  text (buf (snd run1)) = text (buf (snd run2)) /\
  values (buf (snd run1)) = values (buf (snd run2)) /\
  world (snd run1) = w1 /\ world (snd run2) = w2.
Proof.
  intros Hb.
  destruct (Built_appends _ b d Hb) as (r & t & vs & Hall & _).
  cbv zeta. rewrite !Hall. repeat split.
Qed.

End Trees.

(* =================================================================== *)
(** ** Further properties of Like and NotLike *)
(* =================================================================== *)

Section PatternOutcomes.
Context {W : Type}.
Implicit Types (st : state W) (d : Dialect) (c : string) (v : any).

Lemma buildLikeCmp_outcome d pred c (n : nat) :
  forall v st,
    indirections v = n ->
    like_outcome d st pred c (buildLikeCmp d st pred c v).
Proof.
  induction n as [|n IH]; intros v st Hn.
  all: rewrite buildLikeCmp_unfold; unfold buildLikeCmp_body.
  all: destruct (reflect.is_nil v) eqn:Hnil; [right; left; reflexivity|].
  all: cbv zeta.
  all: assert (Hbind : forall x, is_textual x = true ->
                 like_outcome d st pred c (buildCmp d st pred c x))
    by (intros x Hx; left; exists x; split;
        [apply buildCmp_wrote | exact Hx]).
  all: destruct (reflect.Value_Kind (reflect.ValueOf v)) eqn:Hk;
    try (right; left; reflexivity).
  (* a pointer or an interface *)
  all: try (destruct (reflect.Value_Elem (reflect.ValueOf v)) as [e|] eqn:He;
            [|right; right; eexists; reflexivity];
            destruct (reflect.Value_Interface e) as [inner|] eqn:Hi;
            [|right; right; eexists; reflexivity];
            assert (Hd : deref v = Some inner)
              by (unfold deref; now rewrite He);
            apply deref_indirections in Hd; rewrite Hn in Hd;
            [discriminate || (injection Hd as Hd; now apply IH)]).
  (* a string *)
  all: try (apply Hbind; unfold is_textual; now rewrite Hk).
  (* a slice *)
  all: destruct (reflect.Value_Type (reflect.ValueOf v)) as [T|] eqn:HT;
    [|right; right; eexists; reflexivity].
  all: destruct (reflect.Type_Elem T) as [E|] eqn:HE;
    [|right; right; eexists; reflexivity].
  all: destruct (reflect.Type_Kind E) as [|[]| | | | | | | | |] eqn:HEk;
    try (right; left; reflexivity).
  all: try (apply Hbind; unfold is_textual; now rewrite Hk, HT, HE, HEk).
  all: destruct (builtin.assert_rune_slice v);
    [apply Hbind; reflexivity | right; right; eexists; reflexivity].
Qed.

Lemma matching_outcome (p : pattern) c v d st :
  like_outcome d st (pattern_operator p) c (Build (matching p c v) d st).
Proof.
  rewrite matching_unfold.
  now apply (buildLikeCmp_outcome d _ c (indirections v)).
Qed.

(** Like and NotLike write nothing unless they succeed: when the render does
    not return nil, the Buffer and the rest of the program state are exactly
    as they were, and the only error returned is ColumnNotSpecified. *)
Theorem matching_failure_leaves_state (p : pattern) c v d st (r : result) st' :
  Build (matching p c v) d st = (r, st') ->
  r <> Ok ->
  st' = st /\ (forall e, r = Err e -> e = ErrColumnNotSpecified).
Proof.
  intros Hrun Hr.
  destruct (matching_outcome p c v d st) as [(x & Hx & _)|[Hx|(q & Hx)]];
    rewrite Hrun in Hx; injection Hx as -> ->.
  - now destruct Hr.
  - split; [reflexivity|]. now intros e [= <-].
  - split; [reflexivity|]. discriminate.
Qed.

(** When Like or NotLike succeeds, it wrote the quoted column, its operator
    and one placeholder, and it bound exactly one value; that value is of
    kind String or a slice of bytes, never a pointer, a number or another
    sequence. *)
Theorem matching_success_binds_text (p : pattern) c v d st st' :
  Build (matching p c v) d st = (Ok, st') ->
  exists x,
    st' = wrote st (QuoteIdent d c ++ " " ++ pattern_operator p ++ " "
                      ++ placeholder) [x] /\
    is_textual x = true.
Proof.
  intros Hrun.
  destruct (matching_outcome p c v d st) as [(x & Hx & Htext)|[Hx|(q & Hx)]];
    rewrite Hrun in Hx; try discriminate.
  injection Hx as ->. now exists x.
Qed.

Lemma deref_pointer T x :
  reflect.Type_Kind T = reflect.Ptr ->
  x <> null \/ reflect.points_to_interface (reflect.Ref T (Some x)) = true ->
  deref (reflect.Ref T (Some x)) = Some x.
Proof.
  intros Hk Hx. unfold deref. simpl. rewrite Hk.
  destruct (reflect.points_to_interface (reflect.Ref T (Some x)));
    [reflexivity|].
  destruct Hx as [Hx|Hx]; [|discriminate].
  destruct x; try reflexivity. now destruct Hx.
Qed.

(** Like and NotLike see through a pointer: given the address of a variable
    that holds [x], they render as they do on [x] itself, whenever [x] is not
    nil or the variable is of interface type (then a nil [x] fails with
    ColumnNotSpecified like the nil value). *)
Theorem matching_through_pointer (p : pattern) c T x d st :
  reflect.Type_Kind T = reflect.Ptr ->
  x <> null \/ reflect.points_to_interface (reflect.Ref T (Some x)) = true ->
  Build (matching p c (reflect.Ref T (Some x))) d st
  = Build (matching p c x) d st.
Proof.
  intros Hk Hx. apply matching_pointer; [exact Hk|].
  now apply deref_pointer.
Qed.

Lemma encode_rune_ascii (a : ascii) :
  (N_of_ascii a < 128)%N ->
  builtin.encode_rune (code_point a) = String a EmptyString.
Proof.
  intros Ha. unfold builtin.encode_rune, builtin.valid_rune, code_point.
  assert (H0 : (0 <=? Z.of_N (N_of_ascii a))%Z = true)
    by (apply Z.leb_le; lia).
  assert (H1 : (Z.of_N (N_of_ascii a) <? 0xD800)%Z = true)
    by (apply Z.ltb_lt; lia).
  assert (H2 : (Z.of_N (N_of_ascii a) <? 0x80)%Z = true)
    by (apply Z.ltb_lt; lia).
  rewrite H0, H1. cbn [andb orb]. rewrite H2.
  unfold builtin.byte. now rewrite N2Z.id, ascii_N_embedding.
Qed.

Lemma string_of_runes_ascii (s : string) :
  is_ascii s -> builtin.string_of_runes (text_runes s) = s.
Proof.
  unfold is_ascii, text_runes, builtin.string_of_runes.
  induction s as [|a s IH]; intros Hs; [reflexivity|].
  cbn [list_ascii_of_string List.map] in *.
  inversion Hs as [|? ? Ha Hrest]; subst.
  specialize (IH Hrest).
  rewrite encode_rune_ascii by exact Ha.
  destruct (List.map builtin.encode_rune
              (List.map code_point (list_ascii_of_string s))) as [|u us] eqn:E.
  - cbn in IH |- *. now rewrite <- IH.
  - change (String.concat EmptyString (String a EmptyString :: u :: us))
      with (String a EmptyString ++ EmptyString
              ++ String.concat EmptyString (u :: us)).
    now rewrite IH.
Qed.

(** Like and NotLike on the runes of an ASCII text render exactly as on the
    text itself: the conversion of line 143 gives the text back. *)
Theorem matching_runes_of_ascii_text (p : pattern) c (s : string) d st :
  is_ascii s ->
  Build (matching p c (runes (Some (text_runes s)))) d st
  = Build (matching p c (str s)) d st.
Proof.
  intros Hs. rewrite matching_runes, string_of_runes_ascii by exact Hs.
  symmetry. now apply matching_text.
Qed.

End PatternOutcomes.

(* =================================================================== *)
(** ** Further properties of And and Or *)
(* =================================================================== *)

Section CombinatorOutcomes.
Context {W : Type}.
Implicit Types (st : state W) (d : Dialect) (cs : list (Builder W)).

Lemma buildCond_range_from_child d pred cs :
  forall i st,
    fst (buildCond_range i d st pred cs) = Ok \/
    exists (c : Builder W) st0,
      In c cs /\ Build c d st0 = buildCond_range i d st pred cs /\
      fst (Build c d st0) <> Ok.
Proof.
  induction cs as [|c cs IH]; intros i st; [now left|].
  cbn [buildCond_range]. cbv zeta.
  match goal with |- context [Build c d ?s] => set (st0 := s) end.
  destruct (Build c d st0) as [r st1] eqn:Hc.
  destruct r as [|e|p].
  - destruct (IH (S i) (WriteString ")" st1)) as [Hok|(c' & s' & Hin & Hrun & Hr)].
    + now left.
    + right. exists c', s'. split; [now right|]. now split.
  - right. exists c, st0. rewrite Hc. repeat split; [now left | discriminate].
  - right. exists c, st0. rewrite Hc. repeat split; [now left | discriminate].
Qed.

(** And and Or never produce an outcome of their own: either they return nil,
    or what they return, result and state together, is what one of their
    children returned when that child failed or panicked.  This holds for
    any children, written in this file or by a caller. *)
Theorem combine_outcome_from_child (l : logical) cs d st :
  fst (Build (combine l cs) d st) = Ok \/
  exists (c : Builder W) st0,
    In c cs /\ Build c d st0 = Build (combine l cs) d st /\
    fst (Build c d st0) <> Ok.
Proof.
  rewrite combine_unfold. apply buildCond_range_from_child.
Qed.

Lemma buildCond_range_first_failure d pred cs (rs : list result) :
  Forall2 (fun c r => forall st, fst (Build c d st) = r) cs rs ->
  forall i st, fst (buildCond_range i d st pred cs) = first_failure rs.
Proof.
  induction 1 as [|c r cs rs Hc _ IH]; intros i st; [reflexivity|].
  cbn [buildCond_range first_failure]. cbv zeta.
  match goal with |- context [Build c d ?s] => specialize (Hc s) end.
  destruct (Build c d _) as [r' st1]. cbn [fst] in Hc. subst r'.
  destruct r; [apply IH | reflexivity | reflexivity].
Qed.

(** When every child returns the same result whatever the state it is given,
    And and Or return the first result, in the order of the children, that
    is not nil, be it an error or a panic, and nil when there is none. *)
Theorem combine_returns_first_failure (l : logical) cs (rs : list result) d st :
  Forall2 (fun c r => forall st, fst (Build c d st) = r) cs rs ->
  fst (Build (combine l cs) d st) = first_failure rs.
Proof.
  intros H. rewrite combine_unfold.
  now apply buildCond_range_first_failure.
Qed.

(** What holds of nil and of the result of every child holds of the result
    of the loop. *)
Lemma buildCond_range_result (R : result -> Prop) d pred cs :
  R Ok ->
  Forall (fun c => forall st, R (fst (Build c d st))) cs ->
  forall i st, R (fst (buildCond_range i d st pred cs)).
Proof.
  intros HOk Hcs i st.
  destruct (buildCond_range_from_child d pred cs i st)
    as [->|(c & st0 & Hin & <- & _)]; [exact HOk|].
  rewrite Forall_forall in Hcs. now apply Hcs.
Qed.

Lemma equality_returns_nil (c : string) (v : any) d st :
  fst (Build (W := W) (Eq c v) d st) = Ok /\
  fst (Build (W := W) (Neq c v) d st) = Ok.
Proof.
  unfold Build, Eq, Neq, BuildFunc.
  destruct (reflect.is_nil v); [now split|]. cbv zeta.
  destruct (reflect.Value_Kind (reflect.ValueOf v)) eqn:Hk;
    try (now split).
  rewrite (Value_Len_sequence v Hk).
  destruct (reflect.data_len v); now split.
Qed.

Lemma compare_returns_nil (o : ordering) (c : string) (v : any) d st :
  fst (Build (W := W) (compare o c v) d st) = Ok.
Proof. now destruct o. Qed.

Lemma Comparing_induction (R : Builder W -> Prop) :
  (forall c v, R (Eq c v)) ->
  (forall c v, R (Neq c v)) ->
  (forall o c v, R (compare o c v)) ->
  (forall l cs, Forall Comparing cs -> Forall R cs -> R (combine l cs)) ->
  forall b, Comparing b -> R b.
Proof.
  intros HEq HNeq Hcmp Hcomb.
  fix IH 2. intros b [c v|c v|o c v|l cs Hcs]; auto.
  apply Hcomb; [exact Hcs|].
  induction Hcs as [|x xs Hx Hxs IHxs]; constructor;
    [apply IH; exact Hx | exact IHxs].
Qed.

(** A Builder tree without Like and NotLike always renders: whatever the
    values, the dialect and the state, it returns nil, neither an error nor a
    panic. *)
Theorem comparing_tree_returns_nil (b : Builder W) d st :
  Comparing b -> fst (Build b d st) = Ok.
Proof.
  intros Hb. revert b Hb st.
  apply (Comparing_induction (fun b => forall st, fst (Build b d st) = Ok)).
  - intros c v st. apply equality_returns_nil.
  - intros c v st. apply equality_returns_nil.
  - intros o c v st. apply compare_returns_nil.
  - intros l cs _ Hcs st. rewrite combine_unfold.
    now apply (buildCond_range_result (fun r => r = Ok)).
Qed.

(** The only error a Builder tree returns is ColumnNotSpecified. *)
Theorem generated_tree_error_is_ColumnNotSpecified (b : Builder W) d st
    (e : error) st' :
  Generated b ->
  Build b d st = (Err e, st') ->
  e = ErrColumnNotSpecified.
Proof.
  intros Hb. revert b Hb st st'.
  pose (R := fun r : result => forall e', r = Err e' -> e' = ErrColumnNotSpecified).
  assert (H : forall b, Generated b -> forall st, R (fst (Build b d st))).
  { apply (Built_induction (fun _ => True)
             (fun b => forall st, R (fst (Build b d st)))).
    - intros c v _ st e' He.
      destruct (equality_returns_nil c v d st) as [H _].
      rewrite H in He. discriminate.
    - intros c v _ st e' He.
      destruct (equality_returns_nil c v d st) as [_ H].
      rewrite H in He. discriminate.
    - intros o c v _ st e' He.
      rewrite compare_returns_nil in He. discriminate.
    - intros p c v _ st e' He.
      destruct (matching_outcome p c v d st) as [(x & Hx & _)|[Hx|(q & Hx)]];
        rewrite Hx in He; cbn [fst] in He; try discriminate.
      now injection He as <-.
    - intros l cs _ Hcs st. rewrite combine_unfold.
      apply (buildCond_range_result R); [discriminate | exact Hcs]. }
  intros b Hb st st' Hrun. apply (H b Hb st). now rewrite Hrun.
Qed.

(** Rendering a Builder tree into a Buffer that already holds text and bound
    values gives the same result as rendering it into an empty Buffer, and
    leaves the old content followed by what the render on the empty Buffer
    leaves; the rest of the program state is untouched.  This holds whether
    the render returns nil, an error or a panic. *)
Theorem generated_render_frames (b : Builder W) d st :
  Generated b ->
  let alone := Build b d (mkState empty (world st)) in
  Build b d st
  = (fst alone,
     wrote st (text (buf (snd alone))) (values (buf (snd alone)))).
Proof.
  intros Hb.
  destruct (Built_appends _ b d Hb) as (r & t & vs & Hall & _).
  cbv zeta. rewrite !Hall. reflexivity.
Qed.

End CombinatorOutcomes.

(* =================================================================== *)
(** ** Typed nil values in Eq and Neq *)
(* =================================================================== *)

Section TypedNil.
Context {W : Type}.
Implicit Types (st : state W) (d : Dialect) (c : string).

(** Only the nil interface is null for Eq and Neq.  A nil slice is an empty
    sequence: it renders as the boolean literal and binds nothing.  A nil
    pointer is an ordinary value: it renders with = or != and one
    placeholder, and the nil pointer itself is bound. *)
Theorem equality_on_typed_nil c (T : reflect.rtype) d st :
  (reflect.Type_Kind T = reflect.Slice ->
   Build (Eq c (reflect.Elems T None)) d st
   = (Ok, wrote st (EncodeBool d false) []) /\
   Build (Neq c (reflect.Elems T None)) d st
   = (Ok, wrote st (EncodeBool d true) [])) /\
  (reflect.Type_Kind T = reflect.Ptr ->
   Build (Eq c (reflect.Ref T None)) d st
   = (Ok, wrote st (QuoteIdent d c ++ " = " ++ placeholder)
            [reflect.Ref T None]) /\
   Build (Neq c (reflect.Ref T None)) d st
   = (Ok, wrote st (QuoteIdent d c ++ " != " ++ placeholder)
            [reflect.Ref T None])).
Proof.
  split; intros Hk; unfold Build, Eq, Neq, BuildFunc, reflect.Value_Len;
    simpl; rewrite Hk; simpl.
  - now rewrite !WriteString_wrote.
  - split; apply buildCmp_wrote.
Qed.

End TypedNil.

(* =================================================================== *)
(** ** The theorems at sample inputs *)
(* =================================================================== *)

Example Like_text_sample :
  Build (Like "name" (str "foo")) plain fresh
  = (Ok, mkState (mkBuffer "name LIKE ?" [str "foo"]) tt).
Proof. reflexivity. Qed.

Example Like_number_sample :
  Build (Like "name" (int 42)) plain fresh
  = (Err ErrColumnNotSpecified, fresh).
Proof. reflexivity. Qed.

Example Like_runes_sample :
  Build (NotLike "name" (runes (Some [0x66; 0xE9; 0x20AC]%Z))) plain fresh
  = (Ok, mkState
           (mkBuffer "name NOT LIKE ?"
              [str (String "f"
                      (String "195" (String "169"
                         (String "226" (String "130" (String "172" ""))))))])
           tt).
Proof. reflexivity. Qed.

(** An invalid code point (here half of a surrogate pair) is bound as the
    three bytes of U+FFFD. *)
Example Like_invalid_rune_sample :
  Build (Like "name" (runes (Some [0xD800]%Z))) plain fresh
  = (Ok, mkState
           (mkBuffer "name LIKE ?"
              [str (String "239" (String "191" (String "189" "")))])
           tt).
Proof. reflexivity. Qed.

Example Like_nil_rune_slice_sample :
  Build (Like "name" (runes None)) plain fresh
  = (Ok, mkState (mkBuffer "name LIKE ?" [str ""]) tt).
Proof. reflexivity. Qed.

Example Eq_samples :
  Build (Eq "a" null) plain fresh
  = (Ok, mkState (mkBuffer "a IS NULL" []) tt) /\
  Build (Eq "a" (reflect.Elems (reflect.TSlice reflect.TString) (Some [])))
    plain fresh
  = (Ok, mkState (mkBuffer "FALSE" []) tt) /\
  Build (Eq "a" (reflect.Elems (reflect.TSlice reflect.TString)
                   (Some [str "x"; str "y"]))) plain fresh
  = (Ok, mkState
           (mkBuffer "a IN ?"
              [reflect.Elems (reflect.TSlice reflect.TString)
                 (Some [str "x"; str "y"])]) tt) /\
  Build (Eq "a" (int 1)) plain fresh
  = (Ok, mkState (mkBuffer "a = ?" [int 1]) tt).
Proof. repeat split. Qed.

Example Or_without_children_sample :
  Build (Or []) plain fresh = (Ok, fresh).
Proof. reflexivity. Qed.

Lemma combine_joins_children_witness :
  Forall2 (fun c o => renders (W := unit) c plain (fst o) (snd o))
    [Eq "a" (int 1); Eq "b" (int 2)]
    [("a = ?", [int 1]); ("b = ?", [int 2])] /\
  fst (Build (And [Eq "a" (int 1); Eq "b" (int 2)]) plain fresh) = Ok /\
  buf (snd (Build (And [Eq "a" (int 1); Eq "b" (int 2)]) plain fresh))
  = mkBuffer "(a = ?) AND (b = ?)" [int 1; int 2].
Proof.
  assert (H : Forall2 (fun c o => renders (W := unit) c plain (fst o) (snd o))
                [Eq "a" (int 1); Eq "b" (int 2)]
                [("a = ?", [int 1]); ("b = ?", [int 2])]).
  { repeat constructor;
      change (Build (Eq ?c ?v) plain st) with (buildCmp plain st "=" c v);
      rewrite buildCmp_wrote; reflexivity. }
  split; [exact H|].
  destruct (combine_joins_children AND _ _ plain fresh H) as (H1 & H2 & _).
  split; [exact H1 | exact H2].
Defined.

Lemma combine_stops_at_first_error_witness :
  Build (And [recorder "a" Ok; recorder "b" (Err (ErrOther "boom"));
              recorder "c" Ok])
    plain (mkState empty [])
  = (Err (ErrOther "boom"),
     mkState (mkBuffer "(a) AND (b" []) ["a"; "b"]).
Proof.
  apply (combine_stops_at_first_error AND
           [recorder "a" Ok] [recorder "c" Ok]
           (recorder "b" (Err (ErrOther "boom"))) plain
           (mkState empty [])
           (mkState (mkBuffer "(a)" []) ["a"])); reflexivity.
Defined.

Lemma generated_render_keeps_balance_witness :
  Generated_clean (W := unit) plain
    (And [Eq "a" (int 1); Like "n" (str "x%")]) /\
  clean_literals plain /\
  balanced (mkBuffer "(a = ?) AND (n LIKE ?)" [int 1; str "x%"]).
Proof.
  assert (Hb : Generated_clean (W := unit) plain
                 (And [Eq "a" (int 1); Like "n" (str "x%")])).
  { exact (Built_combine _ AND [Eq "a" (int 1); Like "n" (str "x%")]
             (Forall_cons _ (Built_Eq _ "a" (int 1) eq_refl)
                (Forall_cons _ (Built_matching _ LIKE "n" (str "x%") eq_refl)
                   (Forall_nil _)))). }
  assert (Hd : clean_literals plain) by (intros [|]; reflexivity).
  split; [exact Hb|]. split; [exact Hd|].
  apply (generated_render_keeps_balance
           (And [Eq "a" (int 1); Like "n" (str "x%")]) plain fresh
           (mkState (mkBuffer "(a = ?) AND (n LIKE ?)" [int 1; str "x%"]) tt)
           Hb Hd); reflexivity.
Defined.

(** C8, as stated, fails when a column holds the placeholder: Eq on such a
    column starts from a balanced Buffer, returns nil, and leaves two
    placeholders for one bound value. *)
Lemma placeholder_in_a_column_unbalances :
  Generated (W := unit) (Eq "?" (int 1)) /\
  Build (Eq "?" (int 1)) plain fresh
  = (Ok, mkState (mkBuffer "? = ?" [int 1]) tt) /\
  balanced (buf fresh) /\
  ~ balanced (mkBuffer "? = ?" [int 1]).
Proof.
  repeat split.
  - now constructor.
  - discriminate.
Qed.

Lemma generated_render_is_deterministic_witness :
  Generated (W := nat)
    (Or [Neq "a" null; And [Gte "b" (int 2); NotLike "c" (int 3)]]) /\
  Build (Or [Neq "a" null; And [Gte "b" (int 2); NotLike "c" (int 3)]])
    plain (mkState empty 0)
  = (Err ErrColumnNotSpecified,
     mkState (mkBuffer "(a IS NOT NULL) OR ((b >= ?) AND (" [int 2]) 0) /\
  buf (snd (Build
              (Or [Neq "a" null; And [Gte "b" (int 2); NotLike "c" (int 3)]])
              plain (mkState empty 7)))
  = mkBuffer "(a IS NOT NULL) OR ((b >= ?) AND (" [int 2].
Proof.
  assert (Hb : Generated (W := nat)
                 (Or [Neq "a" null;
                      And [Gte "b" (int 2); NotLike "c" (int 3)]])).
  { exact (Built_combine _ OR
             [Neq "a" null; And [Gte "b" (int 2); NotLike "c" (int 3)]]
             (Forall_cons _ (Built_Neq _ "a" null I)
                (Forall_cons _
                   (Built_combine _ AND
                      [Gte "b" (int 2); NotLike "c" (int 3)]
                      (Forall_cons _ (Built_compare _ GTE "b" (int 2) I)
                         (Forall_cons _
                            (Built_matching _ NOT_LIKE "c" (int 3) I)
                            (Forall_nil _))))
                   (Forall_nil _)))). }
  split; [exact Hb|]. split; [reflexivity|].
  destruct (generated_render_is_deterministic _ plain 0 7 Hb)
    as (_ & Ht & Hv & _).
  cbv zeta in Ht, Hv.
  destruct (Build _ plain (mkState empty 7)) as [r [[t vs] w]].
  cbn [snd buf text values] in Ht, Hv. cbn [snd buf].
  rewrite <- Ht, <- Hv. reflexivity.
Defined.

(** *** The further properties at sample inputs *)

Lemma matching_failure_leaves_state_witness :
  Build (Like "name" (int 42)) plain fresh
  = (Err ErrColumnNotSpecified, fresh) /\
  (fresh = fresh /\
   forall e, Err ErrColumnNotSpecified = Err e -> e = ErrColumnNotSpecified).
Proof.
  split; [reflexivity|].
  apply (matching_failure_leaves_state LIKE "name" (int 42) plain fresh);
    [reflexivity | discriminate].
Defined.

Lemma matching_success_binds_text_witness :
  exists x,
    mkState (mkBuffer "name NOT LIKE ?" [str "foo%"]) tt
    = wrote fresh (QuoteIdent plain "name" ++ " " ++ pattern_operator NOT_LIKE
                     ++ " " ++ placeholder) [x] /\
    is_textual x = true.
Proof.
  apply (matching_success_binds_text NOT_LIKE "name"
           (reflect.Ref (reflect.TPtr reflect.TString) (Some (str "foo%")))
           plain fresh).
  reflexivity.
Defined.

Lemma matching_through_pointer_witness :
  Build (Like "name"
           (reflect.Ref (reflect.TPtr reflect.TString) (Some (str "foo"))))
    plain fresh
  = Build (Like "name" (str "foo")) plain fresh.
Proof.
  apply (matching_through_pointer LIKE "name" (reflect.TPtr reflect.TString)
           (str "foo") plain fresh); [reflexivity | left; discriminate].
Defined.

Lemma matching_runes_of_ascii_text_witness :
  is_ascii "foo%" /\
  Build (Like "name" (runes (Some (text_runes "foo%")))) plain fresh
  = Build (Like "name" (str "foo%")) plain fresh.
Proof.
  assert (H : is_ascii "foo%") by (repeat constructor).
  split; [exact H|].
  apply (matching_runes_of_ascii_text LIKE "name" "foo%" plain fresh H).
Defined.

Lemma combine_returns_first_failure_witness :
  fst (Build (Or [recorder "a" Ok; recorder "b" (Err (ErrOther "boom"));
                  recorder "c" (Panic (Raised "late"))])
         plain (mkState empty []))
  = Err (ErrOther "boom").
Proof.
  apply (combine_returns_first_failure OR
           [recorder "a" Ok; recorder "b" (Err (ErrOther "boom"));
            recorder "c" (Panic (Raised "late"))]
           [Ok; Err (ErrOther "boom"); Panic (Raised "late")]
           plain (mkState empty [])).
  repeat constructor.
Defined.

Lemma comparing_tree_returns_nil_witness :
  fst (Build (And [Eq "a" null; Or [Lt "b" (int 1)]; Or []]) plain fresh) = Ok.
Proof.
  apply (comparing_tree_returns_nil
           (And [Eq "a" null; Or [Lt "b" (int 1)]; Or []]) plain fresh).
  exact (Comparing_combine AND [Eq "a" null; Or [Lt "b" (int 1)]; Or []]
           (Forall_cons _ (Comparing_Eq "a" null)
              (Forall_cons _
                 (Comparing_combine OR [Lt "b" (int 1)]
                    (Forall_cons _ (Comparing_compare LT "b" (int 1))
                       (Forall_nil _)))
                 (Forall_cons _ (Comparing_combine OR [] (Forall_nil _))
                    (Forall_nil _))))).
Defined.

Lemma generated_tree_error_is_ColumnNotSpecified_witness :
  Build (And [Eq "a" (int 1); Like "n" (int 42)]) plain fresh
  = (Err ErrColumnNotSpecified, mkState (mkBuffer "(a = ?) AND (" [int 1]) tt)
  /\ ErrColumnNotSpecified = ErrColumnNotSpecified.
Proof.
  split; [reflexivity|].
  apply (generated_tree_error_is_ColumnNotSpecified
           (And [Eq "a" (int 1); Like "n" (int 42)]) plain fresh
           ErrColumnNotSpecified
           (mkState (mkBuffer "(a = ?) AND (" [int 1]) tt));
    [|reflexivity].
  exact (Built_combine _ AND [Eq "a" (int 1); Like "n" (int 42)]
           (Forall_cons _ (Built_Eq _ "a" (int 1) I)
              (Forall_cons _ (Built_matching _ LIKE "n" (int 42) I)
                 (Forall_nil _)))).
Defined.

Lemma generated_render_frames_witness :
  Build (Or [Eq "a" (int 1); Gt "b" (int 2)]) plain
    (mkState (mkBuffer "WHERE " [int 0]) tt)
  = (Ok, mkState (mkBuffer "WHERE (a = ?) OR (b > ?)" [int 0; int 1; int 2]) tt).
Proof.
  apply (generated_render_frames (Or [Eq "a" (int 1); Gt "b" (int 2)]) plain
           (mkState (mkBuffer "WHERE " [int 0]) tt)).
  exact (Built_combine _ OR [Eq "a" (int 1); Gt "b" (int 2)]
           (Forall_cons _ (Built_Eq _ "a" (int 1) I)
              (Forall_cons _ (Built_compare _ GT "b" (int 2) I)
                 (Forall_nil _)))).
Defined.

End dbr.
